(** * Chess position model and notation codec: a shallow embedding

    The development follows the C++ sources of the repository:
    - [chess/board.h]     : [Side], [PieceKind], [Position], [PieceSet],
                            [PieceCentricBoard];
    - [chess/game.h]      : [Game];
    - [chess/notation.cc] : the piece/symbol tables, [FileToNumeric],
                            [AlgebraicPosition], [PieceCentricBoard::Dump];
    - [chess/board.cc]    : the [PieceSet] constructor and the dump overloads
                            that write to standard output.

    A C++ call is modelled by the [outcome] monad: it returns a value, throws,
    stops on a failed [ABSL_ASSERT], or has no defined behaviour.  The text
    of the FEN board field, whose reader and writer the sources only declare,
    follows the specification, with the piece letters of the tables of
    [chess/notation.cc]. *)

From Stdlib Require Import ZArith Ascii.
From stdpp Require Import base decidable option list countable gmap strings.

Local Open Scope Z_scope.

(** ** Machine integers and characters *)

(** [static_cast<std::uint8_t>]: reduction modulo 2^8. *)
Definition to_uint8 (z : Z) : Z := z mod 256.

(** [static_cast<std::int8_t>]: two's-complement wrap-around to -128..127. *)
Definition to_int8 (z : Z) : Z := (z + 128) mod 256 - 128.

(** A C++ [char] is one byte. *)
Abbreviation char := ascii.

(** The byte of a [char], 0..255, and the integral promotion of a [char] to
    [int].  Plain [char] is read as signed (the x86-64 convention), so bytes
    from 128 up promote to negative numbers; the assertions of the sources
    compare within ASCII, where the signed and the unsigned reading agree
    ([int_of_char_range] below). *)
Definition code (c : char) : Z := Z.of_N (N_of_ascii c).

Definition int_of_char (c : char) : Z := to_int8 (code c).

(** Conversion of an integer (here: a [char16_t] literal) to [char]. *)
Definition char_of_int (z : Z) : char := ascii_of_N (Z.to_N (to_uint8 z)).

(** ** Outcomes of a call *)

(** [ABSL_ASSERT] is compiled in two ways: with assertions on it evaluates its
    condition and aborts the process when it is false; under [NDEBUG] it
    evaluates nothing. *)
Inductive build : Set := AssertionsOn | NDEBUG.

Inductive outcome (A : Type) : Type :=
| Returned (a : A)
| Thrown (what : string)            (* a C++ exception: the recoverable kind *)
| AssertionFailed (expr : string)   (* abort() from a failed assertion *)
| Undefined.                        (* behaviour the language leaves undefined *)
Arguments Returned {A} a.
Arguments Thrown {A} what.
Arguments AssertionFailed {A} expr.
Arguments Undefined {A}.

#[global] Instance outcome_ret : MRet outcome := @Returned.
#[global] Instance outcome_bind : MBind outcome := fun A B k m =>
  match m with
  | Returned a => k a
  | Thrown e => Thrown e
  | AssertionFailed e => AssertionFailed e
  | Undefined => Undefined
  end.

Definition returns {A} (o : outcome A) : bool :=
  match o with Returned _ => true | _ => false end.

Definition aborts {A} (o : outcome A) : bool :=
  match o with AssertionFailed _ => true | _ => false end.

Definition throws {A} (o : outcome A) : bool :=
  match o with Thrown _ => true | _ => false end.

Definition ABSL_ASSERT (b : build) (expr : string) (cond : outcome bool)
  : outcome unit :=
  match b with
  | NDEBUG => mret tt
  | AssertionsOn => c ← cond; if c : bool then mret tt else AssertionFailed expr
  end.

(** [std::string_view::operator[]]: no bounds check, reading past the end is
    undefined. *)
Definition at_ (s : string) (i : nat) : outcome char :=
  match String.get i s with
  | Some c => mret c
  | None => Undefined
  end.

(** ** chess/board.h *)

Inductive Side : Set := kWhite | kBlack.

Inductive PieceKind : Set := kKing | kQueen | kRook | kBishop | kKnight | kPawn.

#[global] Instance Side_eq_dec : EqDecision Side.
Proof. solve_decision. Defined.

#[global] Instance PieceKind_eq_dec : EqDecision PieceKind.
Proof. solve_decision. Defined.

(** The enumerators' underlying [std::uint8_t] values. *)
Definition PieceKind_underlying (k : PieceKind) : nat :=
  match k with
  | kKing => 0 | kQueen => 1 | kRook => 2 | kBishop => 3 | kKnight => 4
  | kPawn => 5
  end.

Definition PieceKind_of_underlying (n : nat) : option PieceKind :=
  match n with
  | 0%nat => Some kKing | 1%nat => Some kQueen | 2%nat => Some kRook
  | 3%nat => Some kBishop | 4%nat => Some kKnight | 5%nat => Some kPawn
  | _ => None
  end.

#[global] Instance PieceKind_countable : Countable PieceKind.
Proof.
  apply (inj_countable PieceKind_underlying PieceKind_of_underlying).
  intros []; reflexivity.
Defined.

Definition all_kinds : list PieceKind :=
  [kKing; kQueen; kRook; kBishop; kKnight; kPawn].

(** [struct Position { std::uint8_t file; std::uint8_t rank; }]. *)
Record Position : Set := mkPosition { file : Z; rank : Z }.

#[global] Instance Position_eq_dec : EqDecision Position.
Proof. solve_decision. Defined.

(** ** chess/notation.cc: squares *)

Definition FileToNumeric (b : build) (file : char) : outcome Z :=
  _ ← ABSL_ASSERT b "'a' <= file && file <= 'h'"
        (mret ((int_of_char "a"%char <=? int_of_char file)%Z
               && (int_of_char file <=? int_of_char "h"%char)%Z));
  mret (to_uint8 (to_int8 (int_of_char file - int_of_char "a"%char))).

Definition AlgebraicPosition (b : build) (position : string)
  : outcome Position :=
  _ ← ABSL_ASSERT b "position.size() == 2"
        (mret (Nat.eqb (String.length position) 2));
  _ ← ABSL_ASSERT b "'1' <= position[1] && position[1] <= '8'"
        (c ← at_ position 1;
         mret ((int_of_char "1"%char <=? int_of_char c)%Z
               && (int_of_char c <=? int_of_char "8"%char)%Z));
  f ← (c ← at_ position 0; FileToNumeric b c);
  r ← (c ← at_ position 1;
       mret (to_uint8 (int_of_char c - int_of_char "0"%char)));
  mret {| file := f; rank := r |}.

(** The texts that name a square: exactly two characters, a file letter
    'a'..'h' and a rank digit '1'..'8'; and the square such a text names. *)
Definition is_square_text (s : string) : Prop :=
  ∃ f r : char,
    s = String f (String r EmptyString)
    ∧ code "a" ≤ code f ≤ code "h" ∧ code "1" ≤ code r ≤ code "8".

Definition square_of (f r : char) : Position :=
  {| file := code f - code "a"; rank := code r - code "0" |}.

(** ** chess/board.h and chess/board.cc: piece sets *)

Definition kInitialPawnsCount : Z := 8.
Definition kInitialKnightsCount : Z := 8.
Definition kInitialBishopsCount : Z := 8.
Definition kInitialRooksCount : Z := 8.

(** A [Position] member that no initialiser and no assignment has written
    holds an indeterminate value: [None].  A [std::array<Position, N>] is a
    list of [N] such cells. *)
Record PieceSet : Set := mkPieceSet {
  owner_ : Side;
  num_pawns_ : Z;
  num_knights_ : Z;
  num_bishops_ : Z;
  num_rooks_ : Z;
  has_queen_ : bool;
  king_position_ : option Position;
  queen_position_ : option Position;
  pawn_positions_ : list (option Position);
  knight_positions_ : list (option Position);
  bishop_positions_ : list (option Position);
  rook_positions_ : list (option Position)
}.

(** The state of a [PieceSet] when the constructor's body starts: [owner_]
    from the member initialiser list, the counters and [has_queen_] from
    their default member initialisers, the positions untouched. *)
Definition PieceSet_members (owner : Side) : PieceSet :=
  {| owner_ := owner;
     num_pawns_ := kInitialPawnsCount;
     num_knights_ := kInitialPawnsCount;
     num_bishops_ := kInitialPawnsCount;
     num_rooks_ := kInitialPawnsCount;
     has_queen_ := true;
     king_position_ := None;
     queen_position_ := None;
     pawn_positions_ := replicate (Z.to_nat kInitialPawnsCount) None;
     knight_positions_ := replicate (Z.to_nat kInitialKnightsCount) None;
     bishop_positions_ := replicate (Z.to_nat kInitialBishopsCount) None;
     rook_positions_ := replicate (Z.to_nat kInitialRooksCount) None |}.

Definition set_king_position_ (p : Position) (s : PieceSet) : PieceSet :=
  mkPieceSet (owner_ s) (num_pawns_ s) (num_knights_ s) (num_bishops_ s)
    (num_rooks_ s) (has_queen_ s) (Some p) (queen_position_ s)
    (pawn_positions_ s) (knight_positions_ s) (bishop_positions_ s)
    (rook_positions_ s).

Definition set_pawn_positions_ (ps : list Position) (s : PieceSet) : PieceSet :=
  mkPieceSet (owner_ s) (num_pawns_ s) (num_knights_ s) (num_bishops_ s)
    (num_rooks_ s) (has_queen_ s) (king_position_ s) (queen_position_ s)
    (Some <$> ps) (knight_positions_ s) (bishop_positions_ s)
    (rook_positions_ s).

(** The string literals of the braced list assigned to [pawn_positions_], in
    the order written (a braced list is evaluated left to right). *)
Definition white_pawn_literals : list string :=
  ["a2"; "b2"; "c2"; "d2"; "e2"; "f2"; "g2"; "h2)"].

(** [PieceSet::PieceSet(Side owner)]. *)
Definition PieceSet_new (b : build) (owner : Side) : outcome PieceSet :=
  let this := PieceSet_members owner in
  match owner with
  | kWhite =>
      k ← AlgebraicPosition b "e1";
      ps ← mapM (AlgebraicPosition b) white_pawn_literals;
      mret (set_pawn_positions_ ps (set_king_position_ k this))
  | kBlack => mret this
  end.

(** The number of live pieces a [PieceSet] records. *)
Definition live_pieces (s : PieceSet) : Z :=
  num_pawns_ s + num_knights_ s + num_bishops_ s + num_rooks_ s
  + (if has_queen_ s then 1 else 0) + 1.

(** [PieceCentricBoard]: the members in declaration order, which is the order
    their default member initialisers run in. *)
Record PieceCentricBoard : Set := mkPieceCentricBoard {
  black_pieces_ : PieceSet;
  white_pieces_ : PieceSet
}.

(** [PieceCentricBoard() = default], run on storage that has not been zeroed
    (default-initialisation, [PieceCentricBoard b;]): the positions of the
    piece sets are indeterminate.  [PieceCentricBoard_init] below covers the
    expression [PieceCentricBoard()] as well. *)
Definition PieceCentricBoard_new (b : build) : outcome PieceCentricBoard :=
  bp ← PieceSet_new b kBlack;
  wp ← PieceSet_new b kBlack;
  mret {| black_pieces_ := bp; white_pieces_ := wp |}.

(** The classes that derive from the abstract [Board]. *)
Inductive Board : Set :=
| BoardPieceCentric (pcb : PieceCentricBoard).

(** ** chess/game.h *)

(** [std::unique_ptr<Board>] is [None] when it holds the null pointer. *)
Record Game : Set := mkGame {
  fullmove_number_ : Z;
  active_player_ : Side;
  white_king_side_castle_available_ : bool;
  white_queen_side_castle_available_ : bool;
  black_king_side_castle_available_ : bool;
  black_queen_side_castle_available_ : bool;
  halfmove_clock_ : Z;
  board_ : option Board
}.

(** [Game() = default]: every member takes its default member initialiser,
    and [board_] is value-initialised to the null pointer. *)
Definition Game_new : Game :=
  {| fullmove_number_ := 0;
     active_player_ := kWhite;
     white_king_side_castle_available_ := false;
     white_queen_side_castle_available_ := false;
     black_king_side_castle_available_ := false;
     black_queen_side_castle_available_ := false;
     halfmove_clock_ := 0;
     board_ := None |}.

(** ** chess/notation.cc: the symbol tables *)

(** A [std::unordered_map] built from a braced list: the pairs are inserted
    in order and a key already present is kept, as [list_to_map] does. *)
Definition kWhitePieceToAlgebraic : gmap PieceKind char :=
  list_to_map
    [(kKing, "K"%char); (kQueen, "Q"%char);
     (kRook, "R"%char); (kBishop, "B"%char);
     (kKnight, "K"%char); (kPawn, "P"%char)].

Definition kBlackPieceToAlgebraic : gmap PieceKind char :=
  list_to_map
    [(kKing, "k"%char); (kQueen, "q"%char);
     (kRook, "r"%char); (kBishop, "b"%char);
     (kKnight, "k"%char); (kPawn, "p"%char)].

(** The [char16_t] literals the figurine tables are written with. *)
Definition white_figurine_literals : list (PieceKind * Z) :=
  [(kKing, 0x2654); (kQueen, 0x2655);
   (kRook, 0x2656); (kBishop, 0x2657);
   (kKnight, 0x2658); (kPawn, 0x2659)].

Definition black_figurine_literals : list (PieceKind * Z) :=
  [(kKing, 0x2654); (kQueen, 0x2655);
   (kRook, 0x2656); (kBishop, 0x2657);
   (kKnight, 0x2658); (kPawn, 0x2659)].

(** The mapped type of the tables is [char]: each literal is converted on
    its way into its pair. *)
Definition kWhitePieceToFigurine : gmap PieceKind char :=
  list_to_map (prod_map id char_of_int <$> white_figurine_literals).

Definition kBlackPieceToFigurine : gmap PieceKind char :=
  list_to_map (prod_map id char_of_int <$> black_figurine_literals).

(** The table of a side. *)
Definition PieceToAlgebraic (s : Side) : gmap PieceKind char :=
  match s with
  | kWhite => kWhitePieceToAlgebraic
  | kBlack => kBlackPieceToAlgebraic
  end.

Definition PieceToFigurine (s : Side) : gmap PieceKind char :=
  match s with
  | kWhite => kWhitePieceToFigurine
  | kBlack => kBlackPieceToFigurine
  end.

(** ** chess/notation.cc and chess/board.cc: dumps *)

(** An output stream is modelled by the characters written to its buffer so
    far.  [std::ostream os(std::cout.rdbuf())] shares the buffer of standard
    output, so what is written to [os] is appended to standard output. *)
Abbreviation streambuf := string.

(** [void PieceCentricBoard::Dump(std::ostream &os) const {}]. *)
Definition Dump_os (this : PieceCentricBoard) (os : streambuf) : streambuf :=
  os.

(** [void PieceCentricBoard::Dump() const]. *)
Definition Dump (this : PieceCentricBoard) (cout : streambuf) : streambuf :=
  let os := cout in Dump_os this os.

(** [void PieceCentricBoard::DumpFigurine() const]. *)
Definition DumpFigurine (this : PieceCentricBoard) (cout : streambuf)
  : streambuf :=
  let os := cout in Dump_os this os.

(** [void PieceCentricBoard::DumpFEN() const]. *)
Definition DumpFEN (this : PieceCentricBoard) (cout : streambuf) : streambuf :=
  let os := cout in Dump_os this os.

(** ** The squares of the board and the positions a piece set holds *)

(** The 64 positions of a board ([chess/board.h]: "There are only 64
    positions"): a file 0..7 and a rank 1..8. *)
Definition on_board (p : Position) : Prop :=
  0 ≤ file p ≤ 7 ∧ 1 ≤ rank p ≤ 8.

#[global] Instance on_board_dec (p : Position) : Decision (on_board p).
Proof. unfold on_board. apply _. Defined.

(** The positions of a [PieceSet] that have been written, in member order:
    king, queen, pawns, knights, bishops, rooks. *)
Definition written_positions (s : PieceSet) : list Position :=
  omap id (king_position_ s :: queen_position_ s
           :: pawn_positions_ s ++ knight_positions_ s
           ++ bishop_positions_ s ++ rook_positions_ s).

(** ** Default- and value-initialisation *)

(** [T x;] default-initialises an object.  The expression [T()]
    value-initialises it: for a class whose default constructor is not
    user-provided, as the defaulted one of [PieceCentricBoard], the storage
    is zeroed first and the constructor runs then.  [PieceSet] has a
    user-provided constructor, which writes no position for Black, so the
    positions hold afterwards what the storage held before. *)
Inductive initialisation : Set := DefaultInit | ValueInit.

(** The [Position] of zeroed storage. *)
Definition zero_Position : Position := {| file := 0; rank := 0 |}.

(** What a [Position] cell of the storage holds before a constructor runs. *)
Definition fresh_cell (i : initialisation) : option Position :=
  match i with
  | DefaultInit => None
  | ValueInit => Some zero_Position
  end.

(** [PieceSet_members] and [PieceSet::PieceSet(Side owner)] on storage whose
    position cells hold [cell]. *)
Definition PieceSet_members_on (cell : option Position) (owner : Side)
  : PieceSet :=
  {| owner_ := owner;
     num_pawns_ := kInitialPawnsCount;
     num_knights_ := kInitialPawnsCount;
     num_bishops_ := kInitialPawnsCount;
     num_rooks_ := kInitialPawnsCount;
     has_queen_ := true;
     king_position_ := cell;
     queen_position_ := cell;
     pawn_positions_ := replicate (Z.to_nat kInitialPawnsCount) cell;
     knight_positions_ := replicate (Z.to_nat kInitialKnightsCount) cell;
     bishop_positions_ := replicate (Z.to_nat kInitialBishopsCount) cell;
     rook_positions_ := replicate (Z.to_nat kInitialRooksCount) cell |}.

Definition PieceSet_new_on (cell : option Position) (b : build) (owner : Side)
  : outcome PieceSet :=
  let this := PieceSet_members_on cell owner in
  match owner with
  | kWhite =>
      k ← AlgebraicPosition b "e1";
      ps ← mapM (AlgebraicPosition b) white_pawn_literals;
      mret (set_pawn_positions_ ps (set_king_position_ k this))
  | kBlack => mret this
  end.

(** [PieceCentricBoard() = default] under either initialisation: the members
    in declaration order, each from its default member initialiser. *)
Definition PieceCentricBoard_init (i : initialisation) (b : build)
  : outcome PieceCentricBoard :=
  bp ← PieceSet_new_on (fresh_cell i) b kBlack;
  wp ← PieceSet_new_on (fresh_cell i) b kBlack;
  mret {| black_pieces_ := bp; white_pieces_ := wp |}.

(** * The FEN board field

    [DumpFEN(std::ostream &)] and the constructor of [PieceCentricBoard] that
    reads a FEN board field are declared in [chess/board.h] and defined
    nowhere, and so is [ReadFEN] of [chess/notation.h].  The text of the
    board field is therefore written from the specification (section 4.3);
    the letters of the pieces are those of the tables of
    [chess/notation.cc]. *)

Module FEN.

Local Open Scope nat_scope.

(** Modelled from the spec: a piece is a side and a kind, what [OccupantAt]
    answers for an occupied square. *)
Abbreviation Piece := (Side * PieceKind)%type.

(** Modelled from the spec: the twelve pieces, White's first. *)
Definition all_pieces : list Piece :=
  s ← [kWhite; kBlack]; k ← all_kinds; [(s, k)].

(** Modelled from the spec: the observable content of a [Board], the
    occupant of each of its squares, laid out as the dumps render it: ranks
    8 down to 1, and files a to h within a rank. *)
Abbreviation Grid := (list (list (option Piece))).

(** Modelled from the spec: a board is 8 ranks of 8 files. *)
Definition Grid_wf (g : Grid) : Prop :=
  length g = 8 ∧ Forall (λ r, length r = 8) g.

(** ** Text *)

(** Modelled from the spec: the character ranges of the board field ('1'..'8',
    decimal digits). *)
Definition in_range (lo c hi : ascii) : bool :=
  bool_decide (code lo ≤ code c ≤ code hi)%Z.

(** Modelled from the spec: every character of a text satisfies a test. *)
Fixpoint str_forall (P : ascii → bool) (s : string) : bool :=
  match s with
  | EmptyString => true
  | String c rest => P c && str_forall P rest
  end.

(** Modelled from the spec: a character other than a separator. *)
Definition differs (sep c : ascii) : bool := bool_decide (c ≠ sep).

(** Modelled from the spec: a decimal digit. *)
Definition is_digit (c : ascii) : bool := in_range "0" c "9".

(** Modelled from the spec: cutting a text at every occurrence of a
    separator (['/'] between ranks). *)
Fixpoint split (sep : ascii) (s : string) : list string :=
  match s with
  | EmptyString => [EmptyString]
  | String c rest =>
      if decide (c = sep) then EmptyString :: split sep rest
      else match split sep rest with
           | [] => [String c EmptyString]
           | f :: fs => String c f :: fs
           end
  end.

(** Modelled from the spec: texts written one after the other with a
    separator between two of them. *)
Fixpoint join (sep : ascii) (l : list string) : string :=
  match l with
  | [] => EmptyString
  | [s] => s
  | s :: rest => s +:+ String sep (join sep rest)
  end.

(** Modelled from the spec: a digit of the board field, '1'..'8', stands for
    a run of that many empty squares. *)
Definition digit_char (n : nat) : ascii := ascii_of_nat (48 + n).

(** Modelled from the spec: the run a digit '1'..'8' of the board field
    stands for. *)
Definition digit_value (c : ascii) : option nat :=
  if in_range "1" c "8" then Some (nat_of_ascii c - 48) else None.

Section Codec.

(** The letter a piece is written with. *)
Variable letter : Piece → ascii.

(** Modelled from the spec: the piece a letter of the board field stands
    for; none for an invalid piece letter. *)
Definition piece_of_letter (c : ascii) : option Piece :=
  head (filter (λ p, letter p = c) all_pieces).

(** Modelled from the spec: the digit for the run of empty squares that ends
    here, if there is one. *)
Definition flush (empties : nat) : string :=
  match empties with
  | 0 => EmptyString
  | _ => String (digit_char empties) EmptyString
  end.

(** Modelled from the spec: one rank of [DumpFEN], files a to h: a piece is
    its letter, and a digit compresses a run of consecutive empty squares. *)
Fixpoint fmt_rank (empties : nat) (cells : list (option Piece)) : string :=
  match cells with
  | [] => flush empties
  | None :: rest => fmt_rank (S empties) rest
  | Some p :: rest => flush empties +:+ String (letter p) (fmt_rank 0 rest)
  end.

(** Modelled from the spec: [DumpFEN], ranks 8 down to 1 separated by '/'. *)
Definition fmt_board (g : Grid) : string :=
  join "/" (fmt_rank 0 <$> g).

(** Modelled from the spec: the squares of one rank of the board field, a
    digit giving that many empty squares and a letter its piece. *)
Fixpoint parse_rank (s : string) : option (list (option Piece)) :=
  match s with
  | EmptyString => Some []
  | String c rest =>
      cells ← match digit_value c with
              | Some n => Some (replicate n None)
              | None => (λ p, [Some p]) <$> piece_of_letter c
              end;
      (cells ++.) <$> parse_rank rest
  end.

(** Modelled from the spec: construction of a board from the board field: 8
    ranks separated by '/'; it fails ([None], the spec's [MalformedFEN]) if
    the rank lengths do not sum to 8 files or if an invalid piece letter
    appears. *)
Definition parse_board (s : string) : option Grid :=
  g ← mapM parse_rank (split "/" s);
  guard (length g = 8 ∧ Forall (λ r, length r = 8) g);;
  Some g.

End Codec.



(** ** Positions *)







End FEN.

(** * Results about the sources *)

(** ** Characters and wrap-around *)

Lemma code_bounds (c : char) : 0 ≤ code c < 256.
Proof.
  unfold code. pose proof (N_ascii_bounded c). lia.
Qed.

Lemma to_int8_small (z : Z) : -128 ≤ z < 128 → to_int8 z = z.
Proof.
  intros Hz. unfold to_int8. rewrite Z.mod_small by lia. lia.
Qed.

Lemma to_int8_high (z : Z) : 128 ≤ z < 256 → to_int8 z = z - 256.
Proof.
  intros Hz. unfold to_int8.
  replace (z + 128) with (z - 128 + 1 * 256) by lia.
  rewrite Z_mod_plus_full, Z.mod_small by lia. lia.
Qed.

Lemma to_uint8_small (z : Z) : 0 ≤ z < 256 → to_uint8 z = z.
Proof. intros Hz. unfold to_uint8. by rewrite Z.mod_small. Qed.

(** Signed or not, a [char] compares within an ASCII range exactly when its
    byte does. *)
Lemma int_of_char_range (lo hi : Z) (c : char) :
  0 ≤ lo → hi < 128 →
  (lo ≤ int_of_char c ≤ hi ↔ lo ≤ code c ≤ hi).
Proof.
  intros Hlo Hhi. unfold int_of_char.
  pose proof (code_bounds c) as Hc.
  destruct (Z.lt_ge_cases (code c) 128) as [Hs|Hs].
  - rewrite to_int8_small by lia. done.
  - rewrite to_int8_high by lia. lia.
Qed.

Lemma int_of_char_ascii (c : char) : code c < 128 → int_of_char c = code c.
Proof.
  intros Hc. unfold int_of_char. pose proof (code_bounds c).
  apply to_int8_small. lia.
Qed.

Lemma char_range_test (lo hi c : char) :
  code lo < 128 → code hi < 128 →
  (int_of_char lo <=? int_of_char c) && (int_of_char c <=? int_of_char hi)
  = bool_decide (code lo ≤ code c ≤ code hi).
Proof.
  intros Hlo Hhi.
  rewrite (int_of_char_ascii lo), (int_of_char_ascii hi) by done.
  pose proof (code_bounds lo). pose proof (code_bounds hi).
  pose proof (int_of_char_range (code lo) (code hi) c) as Hr.
  case_bool_decide as Hd.
  - apply andb_true_iff. rewrite !Z.leb_le. apply Hr; lia.
  - apply andb_false_iff. rewrite !Z.leb_gt.
    destruct (Z.le_gt_cases (code lo) (int_of_char c)); [|lia].
    destruct (Z.le_gt_cases (int_of_char c) (code hi)); [|lia].
    destruct Hd. apply Hr; lia.
Qed.

(** ** [FileToNumeric] and [AlgebraicPosition] *)

Lemma FileToNumeric_file (b : build) (f : char) :
  code "a" ≤ code f ≤ code "h" →
  FileToNumeric b f = Returned (code f - code "a").
Proof.
  intros Hf. unfold FileToNumeric, ABSL_ASSERT.
  assert (code "a" = 97 ∧ code "h" = 104) as [Ha Hh] by done.
  assert (int_of_char f = code f) as Hi by (apply int_of_char_ascii; lia).
  assert (int_of_char "a" = 97) as Hia by done.
  assert (to_uint8 (to_int8 (int_of_char f - int_of_char "a"))
          = code f - code "a") as ->.
  { rewrite Hi, Hia, Ha. rewrite to_int8_small, to_uint8_small; lia. }
  destruct b; [|done]. simpl.
  rewrite char_range_test by (rewrite ?Ha, ?Hh; lia).
  by rewrite bool_decide_true.
Qed.

Lemma FileToNumeric_not_file (f : char) :
  ¬ (code "a" ≤ code f ≤ code "h") →
  FileToNumeric AssertionsOn f = AssertionFailed "'a' <= file && file <= 'h'".
Proof.
  intros Hf. unfold FileToNumeric, ABSL_ASSERT. simpl.
  rewrite char_range_test by done.
  by rewrite bool_decide_false.
Qed.

Lemma AlgebraicPosition_square (b : build) (f r : char) :
  code "a" ≤ code f ≤ code "h" → code "1" ≤ code r ≤ code "8" →
  AlgebraicPosition b (String f (String r EmptyString))
  = Returned (square_of f r).
Proof.
  intros Hf Hr. unfold AlgebraicPosition, at_. simpl String.get.
  assert (code "1" = 49 ∧ code "8" = 56) as [H1 H8] by done.
  assert (to_uint8 (int_of_char r - int_of_char "0") = code r - code "0")
    as Hrank.
  { rewrite (int_of_char_ascii r) by lia.
    change (int_of_char "0") with 48. change (code "0") with 48.
    apply to_uint8_small. lia. }
  assert (ABSL_ASSERT b "'1' <= position[1] && position[1] <= '8'"
            (c ← mret r;
             mret ((int_of_char "1" <=? int_of_char c)
                   && (int_of_char c <=? int_of_char "8")))
          = Returned ()) as Hassert.
  { destruct b; [|done]. simpl.
    rewrite char_range_test by (rewrite ?H1, ?H8; lia).
    by rewrite bool_decide_true. }
  rewrite Hassert.
  change (mret f ≫= λ c : char, FileToNumeric b c) with (FileToNumeric b f).
  rewrite FileToNumeric_file by done.
  destruct b; simpl; by rewrite Hrank.
Qed.

Lemma AlgebraicPosition_rejects (s : string) :
  ¬ is_square_text s → aborts (AlgebraicPosition AssertionsOn s) = true.
Proof.
  intros Hs. destruct s as [|f [|r [|x rest]]]; [done..| |done].
  unfold AlgebraicPosition, at_. simpl String.get. simpl.
  rewrite char_range_test by done.
  case_bool_decide as Hr; simpl; [|done].
  destruct (decide (code "a" ≤ code f ≤ code "h")) as [Hf|Hf].
  - destruct Hs. by exists f, r.
  - by rewrite FileToNumeric_not_file.
Qed.

Lemma AlgebraicPosition_returns_inv (s : string) :
  returns (AlgebraicPosition AssertionsOn s) = true → is_square_text s.
Proof.
  intros Hret.
  destruct s as [|f [|r [|x rest]]]; [done..| |done].
  destruct (decide (code "a" ≤ code f ≤ code "h"
                    ∧ code "1" ≤ code r ≤ code "8")) as [[Hf Hr]|Hn].
  - by exists f, r.
  - assert (¬ is_square_text (String f (String r EmptyString))) as Hs.
    { intros (f' & r' & [= <- <-] & Hf & Hr). by destruct Hn. }
    apply AlgebraicPosition_rejects in Hs.
    by destruct (AlgebraicPosition AssertionsOn _).
Qed.

Lemma AlgebraicPosition_never_throws (b : build) (s : string) :
  throws (AlgebraicPosition b s) = false.
Proof.
  unfold AlgebraicPosition, FileToNumeric, ABSL_ASSERT, at_.
  destruct b; simpl;
    repeat (match goal with
            | |- context [String.get ?n ?t] => destruct (String.get n t)
            | |- context [if ?c then _ else _] => destruct c
            end; simpl); done.
Qed.

(** C3 (as amended).  With assertions compiled in, [AlgebraicPosition]
    returns a [Position] exactly on the texts of two characters, a file in
    'a'..'h' and a rank digit in '1'..'8'; on those it returns the square the
    text names, in either build; on every other text an [ABSL_ASSERT] fails
    and the call aborts.  No input makes it raise a recoverable error.  The
    function is pure: its outcome is a function of its argument. *)
Theorem AlgebraicPosition_returns_or_aborts (s : string) :
  (is_square_text s ↔ returns (AlgebraicPosition AssertionsOn s) = true)
  ∧ (∀ f r : char,
       s = String f (String r EmptyString) →
       code "a" ≤ code f ≤ code "h" → code "1" ≤ code r ≤ code "8" →
       ∀ b, AlgebraicPosition b s = Returned (square_of f r))
  ∧ (¬ is_square_text s → aborts (AlgebraicPosition AssertionsOn s) = true)
  ∧ (∀ b, throws (AlgebraicPosition b s) = false).
Proof.
  split_and!.
  - split.
    + intros (f & r & -> & Hf & Hr). by rewrite AlgebraicPosition_square.
    + by apply AlgebraicPosition_returns_inv.
  - intros f r -> Hf Hr b. by apply AlgebraicPosition_square.
  - apply AlgebraicPosition_rejects.
  - intros b. apply AlgebraicPosition_never_throws.
Qed.

(** C3, the claim as stated fails on "i9": with assertions on, the rank
    assertion fails and the call aborts; under [NDEBUG] the call returns the
    out-of-range square (8, 9).  Neither is a recoverable error. *)
Lemma AlgebraicPosition_i9_is_no_recoverable_error :
  AlgebraicPosition AssertionsOn "i9"
  = AssertionFailed "'1' <= position[1] && position[1] <= '8'"
  ∧ AlgebraicPosition NDEBUG "i9" = Returned {| file := 8; rank := 9 |}
  ∧ throws (AlgebraicPosition AssertionsOn "i9") = false
  ∧ throws (AlgebraicPosition NDEBUG "i9") = false.
Proof. by vm_compute. Qed.

(** ** [Game] *)

(** C1, evaluated on the code.  [Game()] has White to move and a halfmove
    clock of 0, and also a fullmove number of 0, all four castling flags
    cleared and a null board: it is not the standard starting position that
    the comment on the constructor announces. *)
Theorem Game_new_is_not_the_starting_position :
  active_player_ Game_new = kWhite
  ∧ halfmove_clock_ Game_new = 0
  ∧ fullmove_number_ Game_new = 0
  ∧ white_king_side_castle_available_ Game_new = false
  ∧ white_queen_side_castle_available_ Game_new = false
  ∧ black_king_side_castle_available_ Game_new = false
  ∧ black_queen_side_castle_available_ Game_new = false
  ∧ board_ Game_new = None.
Proof. by split_and!. Qed.

(** ** [PieceSet] and [PieceCentricBoard] *)

Lemma PieceSet_new_black (b : build) :
  PieceSet_new b kBlack = Returned (PieceSet_members kBlack).
Proof. done. Qed.

(** C4, evaluated on the code.  [PieceSet(Side::kBlack)] writes no position
    at all.  [PieceSet(Side::kWhite)] aborts when assertions are on; under
    [NDEBUG] it places the king on e1 and the pawns on a2..h2, and leaves the
    queen, the knights, the bishops and the rooks unplaced. *)
Theorem PieceSet_new_places_king_and_pawns_of_White_only :
  (∀ b, ∃ ps,
     PieceSet_new b kBlack = Returned ps
     ∧ king_position_ ps = None ∧ queen_position_ ps = None
     ∧ pawn_positions_ ps = replicate 8 None
     ∧ knight_positions_ ps = replicate 8 None
     ∧ bishop_positions_ ps = replicate 8 None
     ∧ rook_positions_ ps = replicate 8 None)
  ∧ aborts (PieceSet_new AssertionsOn kWhite) = true
  ∧ (∃ ps,
       PieceSet_new NDEBUG kWhite = Returned ps
       ∧ king_position_ ps = Some (square_of "e" "1")
       ∧ pawn_positions_ ps
         = (λ f, Some (square_of f "2")) <$> ["a"; "b"; "c"; "d"; "e"; "f"; "g"; "h"]%char
       ∧ queen_position_ ps = None
       ∧ knight_positions_ ps = replicate 8 None
       ∧ bishop_positions_ ps = replicate 8 None
       ∧ rook_positions_ ps = replicate 8 None).
Proof.
  split_and!.
  - intros b. exists (PieceSet_members kBlack). by rewrite PieceSet_new_black.
  - by vm_compute.
  - eexists. split; [by vm_compute|]. by split_and!.
Qed.

(** C5, evaluated on the code.  The default-constructed board holds two
    piece sets, and both have owner [Side::kBlack]: [white_pieces_] is
    initialised with [PieceSet(Side::kBlack)]. *)
Theorem PieceCentricBoard_new_owners (b : build) :
  ∃ pcb,
    PieceCentricBoard_new b = Returned pcb
    ∧ owner_ (black_pieces_ pcb) = kBlack
    ∧ owner_ (white_pieces_ pcb) = kBlack.
Proof.
  eexists. unfold PieceCentricBoard_new. rewrite PieceSet_new_black.
  split; [reflexivity|]. done.
Qed.

(** C6, evaluated on the code.  Every [PieceSet] the constructor returns
    records 8 pawns, 8 knights, 8 bishops, 8 rooks, a queen and the king: 34
    live pieces, more than 16. *)
Theorem PieceSet_new_records_34_pieces :
  (∀ b, ∃ ps,
     PieceSet_new b kBlack = Returned ps
     ∧ live_pieces ps = 34 ∧ 16 < live_pieces ps)
  ∧ (∃ ps,
       PieceSet_new NDEBUG kWhite = Returned ps
       ∧ live_pieces ps = 34 ∧ 16 < live_pieces ps).
Proof.
  split.
  - intros b. exists (PieceSet_members kBlack).
    rewrite PieceSet_new_black. by split_and!.
  - eexists. split; [by vm_compute|]. by split_and!.
Qed.

Lemma PieceSet_new_live_pieces (b : build) (s : Side) (ps : PieceSet) :
  PieceSet_new b s = Returned ps → live_pieces ps = 34.
Proof.
  destruct s, b; vm_compute; intros [= <-]; done.
Qed.

(** The failed assertion of [PieceSet(Side::kWhite)] is not reached from
    [PieceCentricBoard()], whose two piece sets are both built for Black. *)
Lemma PieceCentricBoard_new_returns (b : build) :
  returns (PieceCentricBoard_new b) = true.
Proof. by destruct b. Qed.

Lemma PieceCentricBoard_init_returns (i : initialisation) (b : build) :
  returns (PieceCentricBoard_init i b) = true.
Proof. by destruct i, b. Qed.

(** C9 (as amended).  The eighth pawn literal of [PieceSet(Side::kWhite)] is
    "h2)", of 3 characters; the king's literal and the seven pawn literals
    before it pass; on "h2)" the assertion [position.size() == 2] fails, and
    so the construction of White's piece set ends in that failed assertion.
    Default construction does not reach it: [PieceCentricBoard()] builds both
    piece sets for Black and returns, whichever way it is initialised, and
    [Game()] builds no board. *)
Theorem PieceSet_new_white_fails_size_assertion :
  white_pawn_literals !! 7%nat = Some "h2)"
  ∧ String.length "h2)" = 3%nat
  ∧ Forall (λ s, returns (AlgebraicPosition AssertionsOn s) = true)
      ("e1" :: take 7 white_pawn_literals)
  ∧ AlgebraicPosition AssertionsOn "h2)"
    = AssertionFailed "position.size() == 2"
  ∧ PieceSet_new AssertionsOn kWhite = AssertionFailed "position.size() == 2"
  ∧ (∀ b, returns (PieceCentricBoard_new b) = true)
  ∧ (∀ i b, returns (PieceCentricBoard_init i b) = true)
  ∧ board_ Game_new = None.
Proof.
  split_and!; [done|done| |done|by vm_compute| | |done].
  - repeat constructor.
  - apply PieceCentricBoard_new_returns.
  - apply PieceCentricBoard_init_returns.
Qed.

(** C9, the claim as stated fails on default construction: with assertions
    on, [PieceCentricBoard()] returns and fails no assertion, default- or
    value-initialised, and [Game()] holds a null board. *)
Lemma default_construction_fails_no_assertion :
  returns (PieceCentricBoard_new AssertionsOn) = true
  ∧ aborts (PieceCentricBoard_new AssertionsOn) = false
  ∧ returns (PieceCentricBoard_init ValueInit AssertionsOn) = true
  ∧ aborts (PieceCentricBoard_init ValueInit AssertionsOn) = false
  ∧ board_ Game_new = None.
Proof. by vm_compute. Qed.

(** ** The symbol tables *)

(** C7, evaluated on the code.  Both algebraic tables give the knight the
    letter of the king ('K' for White, 'k' for Black); the other five kinds
    have the standard letters.  So two distinct kinds of one side render as
    the same symbol. *)
Theorem knight_is_written_with_the_kings_letter :
  (λ k, kWhitePieceToAlgebraic !! k) <$> all_kinds
  = Some <$> ["K"; "Q"; "R"; "B"; "K"; "P"]%char
  ∧ (λ k, kBlackPieceToAlgebraic !! k) <$> all_kinds
    = Some <$> ["k"; "q"; "r"; "b"; "k"; "p"]%char
  ∧ (∀ s, kKnight ≠ kKing
          ∧ PieceToAlgebraic s !! kKnight = PieceToAlgebraic s !! kKing).
Proof.
  split_and!; [by vm_compute..|].
  intros []; split; done.
Qed.

(** C10.  Each figurine table entry is its [char16_t] literal U+2654..U+2659
    converted to [char], that is reduced modulo 2^8: the entries are 'T',
    'U', 'V', 'W', 'X', 'Y' (0x54..0x59), for king, queen, rook, bishop,
    knight and pawn.  The black table holds for every kind the value of the
    white table. *)
Theorem figurine_tables_are_truncated_and_equal :
  (∀ k z, (k, z) ∈ white_figurine_literals →
     0x2654 ≤ z ≤ 0x2659
     ∧ kWhitePieceToFigurine !! k = Some (char_of_int z)
     ∧ code (char_of_int z) = z mod 2 ^ 8)
  ∧ (λ k, kWhitePieceToFigurine !! k) <$> all_kinds
    = Some <$> ["T"; "U"; "V"; "W"; "X"; "Y"]%char
  ∧ (λ c, code c) <$> ["T"; "U"; "V"; "W"; "X"; "Y"]%char
    = [0x54; 0x55; 0x56; 0x57; 0x58; 0x59]
  ∧ (∀ k, is_Some (PieceToFigurine kWhite !! k)
          ∧ PieceToFigurine kBlack !! k = PieceToFigurine kWhite !! k).
Proof.
  split_and!.
  - intros k z Hin. unfold white_figurine_literals in Hin.
    rewrite !elem_of_cons, elem_of_nil in Hin.
    destruct_or!; simplify_eq; (split_and!; [lia|lia|by vm_compute..]).
  - by vm_compute.
  - done.
  - intros k. split; [|done]. destruct k; eexists; by vm_compute.
Qed.

(** ** Dumps *)

Section SinkTakingDumps.

(** [DumpFigurine(std::ostream &)] and [DumpFEN(std::ostream &)] are declared
    and have no definition in the sources: any function of the board and the
    stream can stand for them. *)
Variables DumpFigurine_os DumpFEN_os
  : PieceCentricBoard → streambuf → streambuf.

(** C8, evaluated on the code.  The three overloads without a sink all call
    [Dump(os)], whose body is empty: standard output is left as it was.  So
    [Dump()] writes what [Dump(os)] writes, while [DumpFigurine()] and
    [DumpFEN()] write what their counterparts with a sink write only where
    those write nothing. *)
Theorem sinkless_dumps_all_call_Dump (this : PieceCentricBoard)
    (cout : streambuf) :
  Dump this cout = Dump_os this cout
  ∧ DumpFigurine this cout = Dump_os this cout
  ∧ DumpFEN this cout = Dump_os this cout
  ∧ Dump_os this cout = cout
  ∧ (DumpFigurine this cout = DumpFigurine_os this cout
     ↔ DumpFigurine_os this cout = cout)
  ∧ (DumpFEN this cout = DumpFEN_os this cout
     ↔ DumpFEN_os this cout = cout).
Proof.
  unfold Dump, DumpFigurine, DumpFEN, Dump_os.
  split_and!; try reflexivity; split; congruence.
Qed.

End SinkTakingDumps.

(** * Results about the FEN board field *)

Module FENFacts.

Import FEN.

Local Open Scope nat_scope.

(** ** Texts and separators *)

Lemma str_forall_cons (P : ascii → bool) (c : ascii) (s : string) :
  str_forall P (String c s) = P c && str_forall P s.
Proof. done. Qed.

Lemma str_forall_app (P : ascii → bool) (s t : string) :
  str_forall P (s +:+ t) = str_forall P s && str_forall P t.
Proof.
  induction s as [|c s IH]; [done|].
  change (String c s +:+ t) with (String c (s +:+ t)). simpl.
  by rewrite IH, andb_assoc.
Qed.

Lemma split_free (sep : ascii) (s : string) :
  str_forall (differs sep) s = true → split sep s = [s].
Proof.
  induction s as [|c s IH]; [done|]. simpl.
  intros [Hc Hs]%andb_true_iff. apply bool_decide_eq_true in Hc.
  rewrite decide_False by done. by rewrite IH.
Qed.

Lemma split_app (sep : ascii) (s t : string) :
  str_forall (differs sep) s = true →
  split sep (s +:+ String sep t) = s :: split sep t.
Proof.
  induction s as [|c s IH].
  - intros _. change (split sep (String sep t) = "" :: split sep t).
    simpl. by rewrite decide_True.
  - simpl. intros [Hc Hs]%andb_true_iff. apply bool_decide_eq_true in Hc.
    change (String c s +:+ String sep t) with (String c (s +:+ String sep t)).
    simpl. rewrite decide_False by done. by rewrite IH.
Qed.

Lemma split_join (sep : ascii) (l : list string) :
  l ≠ [] →
  Forall (λ s, str_forall (differs sep) s = true) l →
  split sep (join sep l) = l.
Proof.
  intros Hl Hfree. induction Hfree as [|s l Hs Hfree IH]; [done|].
  destruct l as [|t l].
  - by apply split_free.
  - change (join sep (s :: t :: l)) with (s +:+ String sep (join sep (t :: l))).
    rewrite split_app by done. by rewrite IH.
Qed.

(** ** Ranks and the board field *)

(** One step of the rank functions, leaving the characters symbolic. *)
Ltac rank_step :=
  cbn [fmt_rank flush parse_rank str_forall
       mbind option_bind fmap option_fmap option_map].

Lemma digit_char_digit (n : nat) :
  1 ≤ n ≤ 8 →
  digit_value (digit_char n) = Some n ∧ is_digit (digit_char n) = true.
Proof.
  intros Hn.
  do 9 (destruct n as [|n]; [first [lia | by vm_compute]|]). lia.
Qed.

Lemma not_digit_no_value (c : ascii) :
  is_digit c = false → digit_value c = None.
Proof.
  unfold is_digit, digit_value, in_range. intros Hc.
  apply bool_decide_eq_false in Hc.
  rewrite bool_decide_false; [done|].
  change (code "0") with 48%Z in Hc. change (code "9") with 57%Z in Hc.
  change (code "1") with 49%Z. change (code "8") with 56%Z. lia.
Qed.

Section RoundTrip.

Variable letter : Piece → ascii.

(** What reading a board field back needs of the letters: two pieces never
    share one, and no letter is a digit or the separator of the ranks. *)
Hypothesis letter_inj : ∀ p q, letter p = letter q → p = q.
Hypothesis letter_plain :
  ∀ p, is_digit (letter p) = false ∧ letter p ≠ "/"%char.

Lemma piece_of_letter_letter (p : Piece) :
  piece_of_letter letter (letter p) = Some p.
Proof.
  unfold piece_of_letter.
  let l := eval vm_compute in all_pieces in change all_pieces with l.
  destruct p as [[] []];
    repeat (rewrite filter_cons;
            destruct (decide _) as [H|H];
            [by apply letter_inj in H | try done; try clear H]).
Qed.

Lemma parse_rank_fmt_rank (cells : list (option Piece)) (n : nat) :
  n + length cells ≤ 8 →
  parse_rank letter (fmt_rank letter n cells)
  = Some (replicate n None ++ cells).
Proof.
  revert n. induction cells as [|[p|] cells IH]; intros n Hlen;
    cbn [length] in Hlen.
  - destruct n as [|n]; [done|]. rank_step.
    destruct (digit_char_digit (S n)) as [-> _]; [lia|]. by rank_step.
  - destruct (letter_plain p) as [Hd%not_digit_no_value _].
    assert (parse_rank letter (String (letter p) (fmt_rank letter 0 cells))
            = Some (Some p :: cells)) as Hpiece.
    { rank_step. rewrite Hd, piece_of_letter_letter. rank_step.
      by rewrite IH by lia. }
    destruct n as [|n]; [done|].
    change (fmt_rank letter (S n) (Some p :: cells))
      with (String (digit_char (S n))
              (String (letter p) (fmt_rank letter 0 cells))).
    change (parse_rank letter (String ?c ?rest))
      with (cells ← match digit_value c with
                    | Some n => Some (replicate n None)
                    | None => (λ p, [Some p]) <$> piece_of_letter letter c
                    end;
            (cells ++.) <$> parse_rank letter rest) at 1.
    destruct (digit_char_digit (S n)) as [-> _]; [lia|].
    by rewrite Hpiece.
  - rank_step. rewrite IH by lia.
    by rewrite replicate_S_end, <-app_assoc.
Qed.

Lemma fmt_rank_free (sep : ascii) (cells : list (option Piece)) (n : nat) :
  is_digit sep = false → (∀ p, letter p ≠ sep) →
  n + length cells ≤ 8 →
  str_forall (differs sep) (fmt_rank letter n cells) = true.
Proof.
  intros Hsep Hletter.
  assert (∀ k, k ≤ 8 → str_forall (differs sep) (flush k) = true) as Hflush.
  { intros [|k] Hk; [done|]. rank_step. rewrite andb_true_r.
    apply bool_decide_eq_true. intros Heq.
    destruct (digit_char_digit (S k)) as [_ Hd]; [lia|]. congruence. }
  revert n. induction cells as [|[p|] cells IH]; intros n Hlen;
    cbn [length] in Hlen; cbn [fmt_rank].
  - apply Hflush. lia.
  - rewrite str_forall_app, Hflush, str_forall_cons by lia.
    rewrite IH by lia. rewrite andb_true_r.
    apply bool_decide_eq_true, Hletter.
  - apply IH. lia.
Qed.

Lemma parse_board_fmt_board (g : Grid) :
  Grid_wf g → parse_board letter (fmt_board letter g) = Some g.
Proof.
  intros [Hlen Hranks]. unfold parse_board, fmt_board.
  rewrite split_join.
  - assert (mapM (parse_rank letter) (fmt_rank letter 0 <$> g) = Some g)
      as ->.
    { apply mapM_Some_2, Forall2_fmap_l, Forall_Forall2_diag.
      eapply Forall_impl; [exact Hranks|].
      intros r Hr. cbv beta in Hr. simpl.
      rewrite parse_rank_fmt_rank by lia. done. }
    simpl. by rewrite option_guard_True.
  - destruct g; [done|]. done.
  - apply Forall_fmap. eapply Forall_impl; [exact Hranks|].
    intros r Hr. cbv beta in Hr. simpl. apply fmt_rank_free; [done| |lia].
    intros p. apply letter_plain.
Qed.

End RoundTrip.

(** ** The board field with the letters of the source tables *)





End FENFacts.

(** * Further results about the sources *)

(** ** Wrap-around of the casts *)

Lemma to_uint8_to_int8 (z : Z) : to_uint8 (to_int8 z) = z mod 256.
Proof.
  unfold to_uint8, to_int8. rewrite Zminus_mod_idemp_l. f_equal. lia.
Qed.

Lemma to_int8_sub_mod (z k : Z) : (to_int8 z - k) mod 256 = (z - k) mod 256.
Proof.
  rewrite Zminus_mod. change (to_int8 z mod 256) with (to_uint8 (to_int8 z)).
  rewrite to_uint8_to_int8. by rewrite <-Zminus_mod.
Qed.

Lemma code_inj (c d : char) : code c = code d → c = d.
Proof.
  unfold code. intros H%(inj Z.of_N).
  by rewrite <-(ascii_N_embedding c), <-(ascii_N_embedding d), H.
Qed.

Lemma code_ascii_of_N (z : Z) :
  0 ≤ z < 256 → code (ascii_of_N (Z.to_N z)) = z.
Proof.
  intros Hz. unfold code. rewrite N_ascii_embedding by lia. lia.
Qed.

Lemma sub_mod_inj (a b k : Z) :
  0 ≤ a < 256 → 0 ≤ b < 256 →
  (a - k) mod 256 = (b - k) mod 256 → a = b.
Proof.
  intros Ha Hb Heq.
  pose proof (Z.div_mod (a - k) 256). pose proof (Z.div_mod (b - k) 256).
  lia.
Qed.

Lemma FileToNumeric_NDEBUG (c : char) :
  FileToNumeric NDEBUG c = Returned ((code c - code "a") mod 256).
Proof.
  unfold FileToNumeric, ABSL_ASSERT. cbn [mbind outcome_bind mret outcome_ret].
  rewrite to_uint8_to_int8. unfold int_of_char at 1.
  rewrite to_int8_sub_mod. done.
Qed.

(** ** [FileToNumeric] *)

(** X1.  With assertions on, [FileToNumeric] returns exactly on the letters
    'a'..'h', the number of the file counted from 0 (so 0..7), and aborts
    on its assertion on every other character. *)
Theorem FileToNumeric_checked (c : char) :
  FileToNumeric AssertionsOn c
  = (if bool_decide (code "a" ≤ code c ≤ code "h")
     then Returned (code c - code "a")
     else AssertionFailed "'a' <= file && file <= 'h'")
  ∧ (∀ n, FileToNumeric AssertionsOn c = Returned n → 0 ≤ n ≤ 7).
Proof.
  assert (FileToNumeric AssertionsOn c
          = (if bool_decide (code "a" ≤ code c ≤ code "h")
             then Returned (code c - code "a")
             else AssertionFailed "'a' <= file && file <= 'h'")) as Heq.
  { case_bool_decide as Hc.
    - by apply FileToNumeric_file.
    - by apply FileToNumeric_not_file. }
  split; [done|]. intros n. rewrite Heq.
  case_bool_decide as Hc; [|done]. intros [= <-].
  change (code "a") with 97 in *. change (code "h") with 104 in *. lia.
Qed.

(** X2.  Under [NDEBUG] [FileToNumeric] checks nothing: it returns on every
    character the difference to 'a' reduced modulo 2^8 (the intermediate
    cast to [std::int8_t] changes nothing), distinct characters give
    distinct numbers, and the number is in 0..7 exactly when the character
    is in 'a'..'h'. *)
Theorem FileToNumeric_unchecked (c : char) :
  FileToNumeric NDEBUG c = Returned ((code c - code "a") mod 256)
  ∧ (∀ d, FileToNumeric NDEBUG c = FileToNumeric NDEBUG d → c = d)
  ∧ (0 ≤ (code c - code "a") mod 256 ≤ 7 ↔ code "a" ≤ code c ≤ code "h").
Proof.
  split_and!.
  - apply FileToNumeric_NDEBUG.
  - intros d. rewrite !FileToNumeric_NDEBUG. intros [= Heq].
    apply code_inj.
    by eapply sub_mod_inj; [apply code_bounds..|exact Heq].
  - pose proof (code_bounds c) as Hc.
    change (code "a") with 97. change (code "h") with 104.
    destruct (Z.lt_ge_cases (code c) 97) as [Hlt|Hge].
    + replace (code c - 97) with (code c + 159 + (-1) * 256) by lia.
      rewrite Z_mod_plus_full, Z.mod_small by lia. lia.
    + rewrite Z.mod_small by lia. lia.
Qed.

(** ** [AlgebraicPosition] *)

(** X3.  The order of the checks of [AlgebraicPosition]: a text that is not of
    length 2 fails the size assertion; a text of length 2 whose second
    character is no digit '1'..'8' fails the rank assertion, whatever its
    first character; and only a text of length 2 with a good rank and a
    first character outside 'a'..'h' fails the assertion of
    [FileToNumeric]. *)
Theorem AlgebraicPosition_failed_assertion (s : string) :
  (String.length s ≠ 2%nat →
   AlgebraicPosition AssertionsOn s = AssertionFailed "position.size() == 2")
  ∧ (∀ f r : char,
       s = String f (String r EmptyString) →
       ¬ code "1" ≤ code r ≤ code "8" →
       AlgebraicPosition AssertionsOn s
       = AssertionFailed "'1' <= position[1] && position[1] <= '8'")
  ∧ (∀ f r : char,
       s = String f (String r EmptyString) →
       code "1" ≤ code r ≤ code "8" → ¬ code "a" ≤ code f ≤ code "h" →
       AlgebraicPosition AssertionsOn s
       = AssertionFailed "'a' <= file && file <= 'h'").
Proof.
  split_and!.
  - intros Hlen. by destruct s as [|f [|r [|x rest]]].
  - intros f r -> Hr. unfold AlgebraicPosition, at_. simpl String.get. simpl.
    rewrite char_range_test by done. by rewrite bool_decide_false.
  - intros f r -> Hr Hf. unfold AlgebraicPosition, at_. simpl String.get.
    simpl. rewrite char_range_test by done. rewrite bool_decide_true by done.
    simpl. by rewrite FileToNumeric_not_file.
Qed.

(** X4.  The positions [AlgebraicPosition] returns when its assertions pass are
    exactly the 64 squares of the board: every returned position has a file
    in 0..7 and a rank in 1..8, and every such position is returned for some
    text. *)
Theorem AlgebraicPosition_onto_the_board (p : Position) :
  (∃ s, AlgebraicPosition AssertionsOn s = Returned p) ↔ on_board p.
Proof.
  change (code "a") with 97. split.
  - intros [s Hs].
    assert (is_square_text s) as (f & r & -> & Hf & Hr).
    { apply AlgebraicPosition_returns_inv. by rewrite Hs. }
    rewrite AlgebraicPosition_square in Hs by done. injection Hs as <-.
    unfold on_board, square_of. cbn [file rank].
    change (code "a") with 97 in *. change (code "h") with 104 in *.
    change (code "1") with 49 in *. change (code "8") with 56 in *.
    change (code "0") with 48. lia.
  - destruct p as [f r]. intros [Hf Hr]. cbn [file rank] in Hf, Hr.
    exists (String (ascii_of_N (Z.to_N (97 + f)))
              (String (ascii_of_N (Z.to_N (48 + r))) EmptyString)).
    rewrite AlgebraicPosition_square.
    + unfold square_of. rewrite !code_ascii_of_N by lia.
      change (code "a") with 97. change (code "0") with 48.
      f_equal. f_equal; lia.
    + rewrite code_ascii_of_N by lia.
      change (code "a") with 97. change (code "h") with 104. lia.
    + rewrite code_ascii_of_N by lia.
      change (code "1") with 49. change (code "8") with 56. lia.
Qed.

(** X5.  Two texts for which [AlgebraicPosition] returns the same position
    are the same text. *)
Theorem AlgebraicPosition_inj (s t : string) (p : Position) :
  AlgebraicPosition AssertionsOn s = Returned p →
  AlgebraicPosition AssertionsOn t = Returned p →
  s = t.
Proof.
  intros Hs Ht.
  assert (is_square_text s) as (f & r & -> & Hf & Hr).
  { apply AlgebraicPosition_returns_inv. by rewrite Hs. }
  assert (is_square_text t) as (f' & r' & -> & Hf' & Hr').
  { apply AlgebraicPosition_returns_inv. by rewrite Ht. }
  rewrite AlgebraicPosition_square in Hs, Ht by done.
  rewrite <-Ht in Hs. injection Hs as Hfile Hrank.
  assert (f = f') as -> by (apply code_inj; lia).
  assert (r = r') as -> by (apply code_inj; lia).
  done.
Qed.

(** X5 at the text "e4". *)
Lemma AlgebraicPosition_inj_e4 :
  AlgebraicPosition AssertionsOn "e4" = Returned {| file := 4; rank := 4 |}
  ∧ "e4" = "e4".
Proof.
  split; [reflexivity|].
  apply (AlgebraicPosition_inj "e4" "e4" {| file := 4; rank := 4 |});
    reflexivity.
Defined.

(** X6.  Under [NDEBUG] [AlgebraicPosition] checks nothing and reads the first two
    characters only: on every text of at least two characters it returns,
    whatever follows them, the differences to 'a' and to '0' reduced modulo
    2^8; on a shorter text it reads past the end. *)
Theorem AlgebraicPosition_unchecked :
  (∀ (f r : char) (rest : string),
     AlgebraicPosition NDEBUG (String f (String r rest))
     = Returned {| file := (code f - code "a") mod 256;
                   rank := (code r - code "0") mod 256 |})
  ∧ AlgebraicPosition NDEBUG EmptyString = Undefined
  ∧ (∀ f : char, AlgebraicPosition NDEBUG (String f EmptyString) = Undefined).
Proof.
  split_and!; [|done..].
  intros f r rest. unfold AlgebraicPosition, at_, ABSL_ASSERT.
  simpl String.get. cbn [mbind outcome_bind mret outcome_ret].
  rewrite FileToNumeric_NDEBUG. cbn [mbind outcome_bind mret outcome_ret].
  unfold to_uint8, int_of_char at 1. by rewrite to_int8_sub_mod.
Qed.

(** ** The two builds *)

(** X7.  The build without assertions extends the build with them: a call of
    [FileToNumeric], [AlgebraicPosition], the [PieceSet] constructor or the
    default [PieceCentricBoard] constructor either aborts on an assertion in
    the checked build, or has the same outcome in both builds. *)
Theorem NDEBUG_extends_AssertionsOn :
  (∀ c, aborts (FileToNumeric AssertionsOn c) = true
        ∨ FileToNumeric NDEBUG c = FileToNumeric AssertionsOn c)
  ∧ (∀ s, aborts (AlgebraicPosition AssertionsOn s) = true
          ∨ AlgebraicPosition NDEBUG s = AlgebraicPosition AssertionsOn s)
  ∧ (∀ o, aborts (PieceSet_new AssertionsOn o) = true
          ∨ PieceSet_new NDEBUG o = PieceSet_new AssertionsOn o)
  ∧ (aborts (PieceCentricBoard_new AssertionsOn) = true
     ∨ PieceCentricBoard_new NDEBUG = PieceCentricBoard_new AssertionsOn).
Proof.
  split_and!.
  - intros c. destruct (decide (code "a" ≤ code c ≤ code "h")) as [Hc|Hc].
    + right. by rewrite !FileToNumeric_file.
    + left. by rewrite FileToNumeric_not_file.
  - intros s.
    destruct (aborts (AlgebraicPosition AssertionsOn s)) eqn:Ha; [by left|].
    right.
    assert (is_square_text s) as (f & r & -> & Hf & Hr).
    { destruct s as [|f [|r [|x rest]]]; [done..| |done].
      destruct (decide (code "a" ≤ code f ≤ code "h"
                        ∧ code "1" ≤ code r ≤ code "8")) as [[Hf Hr]|Hn].
      - by exists f, r.
      - rewrite AlgebraicPosition_rejects in Ha; [done|].
        intros (f' & r' & [= <- <-] & Hf & Hr). by destruct Hn. }
    by rewrite !AlgebraicPosition_square.
  - intros []; [by left|by right].
  - by right.
Qed.

(** ** The constructors *)

(** X8.  [PieceSet(owner)] returns unless it is built for White with assertions
    on.  A piece set it returns has the owner it was built for and four
    arrays of 8 cells; the positions it has written are squares of the
    board, no two of them the same, and there are none exactly for Black. *)
Theorem PieceSet_new_invariants (b : build) (o : Side) :
  (returns (PieceSet_new b o) = true ↔ o = kBlack ∨ b = NDEBUG)
  ∧ (∀ ps, PieceSet_new b o = Returned ps →
       owner_ ps = o
       ∧ length (pawn_positions_ ps) = 8%nat
       ∧ length (knight_positions_ ps) = 8%nat
       ∧ length (bishop_positions_ ps) = 8%nat
       ∧ length (rook_positions_ ps) = 8%nat
       ∧ Forall on_board (written_positions ps)
       ∧ NoDup (written_positions ps)
       ∧ (written_positions ps = [] ↔ o = kBlack)).
Proof.
  split.
  - destruct b, o; vm_compute; split; intros H; try done; auto;
      by destruct H.
  - intros ps Hps.
    destruct b, o; vm_compute in Hps; try discriminate Hps;
      injection Hps as <-;
      (split_and!; [reflexivity..| | |split; intros H; done]);
      refine (bool_decide_unpack _ _); by vm_compute.
Qed.

(** X9.  [PieceCentricBoard()] returns in either build and under either
    initialisation.  Default-initialised it is the board of
    [PieceCentricBoard_new].  Value-initialised, as the expression
    [PieceCentricBoard()] is, its storage is zeroed first: its two piece sets
    are then equal, and the king, the queen and every cell of the four
    arrays of each hold the position (0, 0), which is no square of the
    board. *)
Theorem PieceCentricBoard_init_positions (b : build) :
  (∀ i, returns (PieceCentricBoard_init i b) = true)
  ∧ PieceCentricBoard_init DefaultInit b = PieceCentricBoard_new b
  ∧ (∃ pcb,
       PieceCentricBoard_init ValueInit b = Returned pcb
       ∧ black_pieces_ pcb = white_pieces_ pcb
       ∧ king_position_ (white_pieces_ pcb) = Some zero_Position
       ∧ queen_position_ (white_pieces_ pcb) = Some zero_Position
       ∧ pawn_positions_ (white_pieces_ pcb) = replicate 8 (Some zero_Position)
       ∧ knight_positions_ (white_pieces_ pcb)
         = replicate 8 (Some zero_Position)
       ∧ bishop_positions_ (white_pieces_ pcb)
         = replicate 8 (Some zero_Position)
       ∧ rook_positions_ (white_pieces_ pcb) = replicate 8 (Some zero_Position))
  ∧ ¬ on_board zero_Position.
Proof.
  split_and!.
  - intros i. apply PieceCentricBoard_init_returns.
  - reflexivity.
  - eexists. split; [reflexivity|]. by split_and!.
  - unfold on_board, zero_Position. cbn [file rank]. lia.
Qed.

(** ** The algebraic tables *)

(** X10.  Both algebraic tables have an entry for every piece kind; White's symbol
    is an uppercase letter and Black's is that letter in lowercase, so no
    symbol is shared between the sides; and within a side two kinds have the
    same symbol only if they are the same kind or the king and the
    knight. *)
Theorem algebraic_tables_case_and_collisions :
  (∀ k, ∃ w l : char,
     kWhitePieceToAlgebraic !! k = Some w
     ∧ kBlackPieceToAlgebraic !! k = Some l
     ∧ code "A" ≤ code w ≤ code "Z" ∧ code l = code w + 32)
  ∧ (∀ k1 k2, kWhitePieceToAlgebraic !! k1 ≠ kBlackPieceToAlgebraic !! k2)
  ∧ (∀ s k1 k2,
       PieceToAlgebraic s !! k1 = PieceToAlgebraic s !! k2
       ↔ k1 = k2 ∨ (k1 = kKing ∧ k2 = kKnight) ∨ (k1 = kKnight ∧ k2 = kKing)).
Proof.
  split_and!.
  - intros k. destruct k; do 2 eexists;
      (split_and!;
         first [by vm_compute | vm_compute; intros H; discriminate H]).
  - intros k1 k2. destruct k1, k2; by vm_compute.
  - intros s k1 k2. destruct s, k1, k2;
      (split;
         [ intros H; vm_compute in H;
           first [discriminate H | by left | by right; left | by right; right]
         | intros [H|[[H1 H2]|[H1 H2]]]; first [reflexivity | congruence] ]).
Qed.
